(** * Vc, scalar backend: [Vc::Scalar::Vector<T>] and [conditional_assign]

    A shallow embedding of [scalar/vector.h].  The scalar backend stores one
    lane ([Size = 1]); a [Vector<T>] is a record around its single entry
    [m_data].  Member functions that write to [*this] or to a reference
    argument return the new values next to their C++ return value. *)

From Stdlib Require Import ZArith Bool List Lia.
From Stdlib Require Import SpecFloat.
Import ListNotations.

Local Open Scope Z_scope.

(** ** Outcome of evaluating a C++ expression *)

(** An expression either yields a value or has none: the program is rejected
    by the compiler ([IllFormed], which does not depend on the values at
    hand), the behaviour is undefined by the language, or a debug assertion
    stops it. *)
Inductive failure : Type :=
| IllFormed
| Undefined
| AssertionFailed.

Inductive result (A : Type) : Type :=
| Ok (a : A)
| Fail (f : failure).

Arguments Ok {A} a.
Arguments Fail {A} f.

Definition bind {A B : Type} (r : result A) (k : A -> result B) : result B :=
  match r with
  | Ok a => k a
  | Fail f => Fail f
  end.

Notation "x <- r ;; k" := (bind r (fun x => k))
  (at level 61, r at next level, right associativity).

(** Modelled from the spec: [VC_ASSERT] of [macros.h] (not among the
    sources), the debug assertion; this is a debug build. *)
Definition VC_ASSERT (c : bool) : result unit :=
  if c then Ok tt else Fail AssertionFailed.

(** ** Operator symbols *)

(** Modelled from the spec: the symbol lists of [macros.h] (not among the
    sources) that the operator macros are expanded over.
    [VC_ALL_ARITHMETICS] is [+ - * / %], [VC_ALL_BINARY] is [| & ^],
    [VC_ALL_SHIFTS] is [<< >>] and [VC_ALL_COMPARES] is [== != <= >= < >]. *)
Inductive symbol : Type :=
| Add | Sub | Mul | Div | Rem
| BitOr | BitAnd | BitXor
| Shl | Shr.

Inductive compare_symbol : Type :=
| CmpEq | CmpNe | CmpLe | CmpGe | CmpLt | CmpGt.

Definition VC_ALL_ARITHMETICS : list symbol := [Add; Sub; Mul; Div; Rem].
Definition VC_ALL_BINARY : list symbol := [BitOr; BitAnd; BitXor].
Definition VC_ALL_SHIFTS : list symbol := [Shl; Shr].
Definition VC_ALL_COMPARES : list compare_symbol :=
  [CmpEq; CmpNe; CmpLe; CmpGe; CmpLt; CmpGt].

(** ** Entry types *)

(** What [Vector<T>] uses of its arithmetic entry type [T]: conversion from an
    [int], which builtin binary operators [T] has, what they compute (with
    the result stored back in a [T]), the builtin comparisons, and which
    values a [T] can hold.  [EntryType] is [T] itself. *)
Class Arithmetic (T : Type) : Type := {
  static_cast_int : Z -> T;
  has_operator : symbol -> bool;
  binary : symbol -> T -> T -> result T;
  relational : compare_symbol -> T -> T -> bool;
  well_formed : T -> bool
}.

(** *** Integer entry types *)

(** The builtin integer types as [Z] within the bounds of the type, with the
    rules of C++11 on a two's complement target: overflow of a signed
    computation, division by zero, an unrepresentable quotient and a shift
    count outside the width are undefined; conversions to a narrower type
    and unsigned arithmetic wrap; [>>] of a negative value is the arithmetic
    shift. *)
Module Integer.

Record kind : Type := { bits : Z; is_signed : bool }.

Definition min_value (k : kind) : Z :=
  if is_signed k then - 2 ^ (bits k - 1) else 0.

Definition max_value (k : kind) : Z :=
  if is_signed k then 2 ^ (bits k - 1) - 1 else 2 ^ bits k - 1.

Definition representable (k : kind) (z : Z) : bool :=
  (min_value k <=? z) && (z <=? max_value k).

(** Conversion to [k]: the value modulo [2 ^ bits k], two's complement for
    a signed [k]. *)
Definition convert (k : kind) (z : Z) : Z :=
  let r := z mod 2 ^ bits k in
  if is_signed k && (2 ^ (bits k - 1) <=? r) then r - 2 ^ bits k else r.

Definition int_kind : kind := {| bits := 32; is_signed := true |}.
Definition uint_kind : kind := {| bits := 32; is_signed := false |}.
Definition short_kind : kind := {| bits := 16; is_signed := true |}.
Definition ushort_kind : kind := {| bits := 16; is_signed := false |}.

(** Integral promotion: types narrower than [int] are computed in [int]. *)
Definition promote (k : kind) : kind :=
  if bits k <? bits int_kind then int_kind else k.

(** An expression whose exact value is [exact], computed in the promoted
    type and stored in a [k]: signed overflow is undefined, unsigned
    arithmetic wraps. *)
Definition store (k : kind) (exact : Z) : result Z :=
  if is_signed (promote k) && negb (representable (promote k) exact)
  then Fail Undefined
  else Ok (convert k exact).

Definition binop (k : kind) (s : symbol) (a b : Z) : result Z :=
  match s with
  | Add => store k (a + b)
  | Sub => store k (a - b)
  | Mul => store k (a * b)
  | Div => if b =? 0 then Fail Undefined else store k (Z.quot a b)
  | Rem =>
      if b =? 0 then Fail Undefined
      else _ <- store k (Z.quot a b) ;; store k (Z.rem a b)
  | BitOr => store k (Z.lor a b)
  | BitAnd => store k (Z.land a b)
  | BitXor => store k (Z.lxor a b)
  | Shl =>
      if (b <? 0) || (bits (promote k) <=? b) then Fail Undefined
      else if is_signed (promote k) && (a <? 0) then Fail Undefined
      else store k (Z.shiftl a b)
  | Shr =>
      if (b <? 0) || (bits (promote k) <=? b) then Fail Undefined
      else store k (Z.shiftr a b)
  end.

Definition relop (c : compare_symbol) (a b : Z) : bool :=
  match c with
  | CmpEq => a =? b
  | CmpNe => negb (a =? b)
  | CmpLe => a <=? b
  | CmpGe => b <=? a
  | CmpLt => a <? b
  | CmpGt => b <? a
  end.

Definition arithmetic (k : kind) : Arithmetic Z :=
  {| static_cast_int := convert k;
     has_operator := fun _ => true;
     binary := binop k;
     relational := relop;
     well_formed := representable k |}.

End Integer.

(** *** Floating-point entry types *)

(** [float] and [double] as the IEEE 754 binary32 and binary64 numbers of
    [SpecFloat]. *)
Module Floating.

Record format : Type := { prec : Z; emax : Z }.

Definition binary32 : format := {| prec := 24; emax := 128 |}.
Definition binary64 : format := {| prec := 53; emax := 1024 |}.

(** [%], the bitwise operators and the shifts do not exist for floating
    operands. *)
Definition has (s : symbol) : bool :=
  match s with
  | Add | Sub | Mul | Div => true
  | Rem | BitOr | BitAnd | BitXor | Shl | Shr => false
  end.

(** IEEE 754 arithmetic, round to nearest even. *)
Definition binop (f : format) (s : symbol) (a b : spec_float) : result spec_float :=
  match s with
  | Add => Ok (SFadd (prec f) (emax f) a b)
  | Sub => Ok (SFsub (prec f) (emax f) a b)
  | Mul => Ok (SFmul (prec f) (emax f) a b)
  | Div => Ok (SFdiv (prec f) (emax f) a b)
  | Rem | BitOr | BitAnd | BitXor | Shl | Shr => Fail IllFormed
  end.

Definition relop (c : compare_symbol) (a b : spec_float) : bool :=
  match c with
  | CmpEq => SFeqb a b
  | CmpNe => negb (SFeqb a b)
  | CmpLe => SFleb a b
  | CmpGe => SFleb b a
  | CmpLt => SFltb a b
  | CmpGt => SFltb b a
  end.

Definition is_nan (a : spec_float) : bool :=
  match a with
  | S754_nan => true
  | _ => false
  end.

Definition arithmetic (f : format) : Arithmetic spec_float :=
  {| static_cast_int := fun z => binary_normalize (prec f) (emax f) z 0 false;
     has_operator := has;
     binary := binop f;
     relational := relop;
     well_formed := valid_binary (prec f) (emax f) |}.

End Floating.

(** The entry types of the vector types Vc declares. *)
Definition int : Type := Z.
Definition unsigned_int : Type := Z.
Definition short : Type := Z.
Definition unsigned_short : Type := Z.
Definition float : Type := spec_float.
Definition double : Type := spec_float.

#[global] Typeclasses Opaque int unsigned_int short unsigned_short float double.

#[global] Instance int_Arithmetic : Arithmetic int :=
  Integer.arithmetic Integer.int_kind.
#[global] Instance unsigned_int_Arithmetic : Arithmetic unsigned_int :=
  Integer.arithmetic Integer.uint_kind.
#[global] Instance short_Arithmetic : Arithmetic short :=
  Integer.arithmetic Integer.short_kind.
#[global] Instance unsigned_short_Arithmetic : Arithmetic unsigned_short :=
  Integer.arithmetic Integer.ushort_kind.
#[global] Instance float_Arithmetic : Arithmetic float :=
  Floating.arithmetic Floating.binary32.
#[global] Instance double_Arithmetic : Arithmetic double :=
  Floating.arithmetic Floating.binary64.

(** ** Mask<T> *)

(** Modelled from the spec: [Scalar::Mask<T>] ([mask.h] is not among the
    sources).  One boolean flag per lane, so one flag here; [Mask(bool)]
    builds it, [data()] reads it, [isFull()] is true iff every lane is true,
    and a mask used where a [bool] is expected stands for its flag. *)
Record Mask : Type := MkMask { data : bool }.

Definition isFull (k : Mask) : bool := data k.

(** ** Vector<T> *)

Record Vector (T : Type) : Type := MkVector { m_data : T }.

Arguments MkVector {T} m_data.
Arguments m_data {T} v.

(** [static constexpr size_t Size = 1] *)
Definition Size : Z := 1.

(** The tags of [enum class Operator] that [conditional_assign] is
    instantiated for, in the order of the two macro tables. *)
Inductive Operator : Type :=
| Assign
| PlusAssign
| MinusAssign
| MultiplyAssign
| DivideAssign
| RemainderAssign
| XorAssign
| AndAssign
| OrAssign
| LeftShiftAssign
| RightShiftAssign
| PostIncrement
| PreIncrement
| PostDecrement
| PreDecrement.

(** What [pack] leaves in [*this] and in its three reference arguments. *)
Record packed (T : Type) : Type := MkPacked {
  pk_this : Vector T;
  pk_m1 : Mask;
  pk_v2 : Vector T;
  pk_m2 : Mask
}.

Arguments MkPacked {T} pk_this pk_m1 pk_v2 pk_m2.
Arguments pk_this {T} p.
Arguments pk_m1 {T} p.
Arguments pk_v2 {T} p.
Arguments pk_m2 {T} p.

Section VectorOps.

Context {T : Type} {A : Arithmetic T}.

(** [Vector(U a)] for an [int] argument: [Vector(static_cast<EntryType>(a))]. *)
Definition broadcast (a : Z) : Vector T := MkVector (static_cast_int a).

(** Modelled from the spec: [Zero()] of [common/generalinterface.h] (not
    among the sources), the zero-filled vector. *)
Definition Zero : Vector T := broadcast 0.

(** Zeroing; the result is the new [*this]. *)
Definition setZero (this : Vector T) : Vector T := broadcast 0.

Definition setZero_masked (this : Vector T) (k : Mask) : Vector T :=
  if data k then broadcast 0 else this.

Definition setZeroInverted (this : Vector T) (k : Mask) : Vector T :=
  if negb (data k) then broadcast 0 else this.

(** [++m_data] and [--m_data] on the entry. *)
Definition increment (x : T) : result T := binary Add x (static_cast_int 1).
Definition decrement (x : T) : result T := binary Sub x (static_cast_int 1).

(** Prefix and postfix [++] / [--]: the returned vector and the new [*this]. *)
Definition pre_increment (this : Vector T) : result (Vector T * Vector T) :=
  d <- increment (m_data this) ;; Ok (MkVector d, MkVector d).

Definition pre_decrement (this : Vector T) : result (Vector T * Vector T) :=
  d <- decrement (m_data this) ;; Ok (MkVector d, MkVector d).

Definition post_increment (this : Vector T) : result (Vector T * Vector T) :=
  d <- increment (m_data this) ;; Ok (MkVector (m_data this), MkVector d).

Definition post_decrement (this : Vector T) : result (Vector T * Vector T) :=
  d <- decrement (m_data this) ;; Ok (MkVector (m_data this), MkVector d).

(** [operator[]]: the index is checked by an assertion. *)
Definition subscript (this : Vector T) (index : Z) : result T :=
  _ <- VC_ASSERT (index =? 0) ;; Ok (m_data this).

(** A template whose body applies [symbol] to entries can be instantiated
    only for a [T] that has the operator. *)
Definition requires (s : symbol) {B : Type} (body : result B) : result B :=
  if has_operator s then body else Fail IllFormed.

(** [OP] and [OPshift]: [operator symbol=] (the result is the new [*this])
    and [operator symbol]. *)
Definition operator_assign (s : symbol) (this x : Vector T) : result (Vector T) :=
  requires s (d <- binary s (m_data this) (m_data x) ;; Ok (MkVector d)).

Definition operator_binary (s : symbol) (this x : Vector T) : result (Vector T) :=
  requires s (d <- binary s (m_data this) (m_data x) ;; Ok (MkVector d)).

(** [OPcmp] *)
Definition operator_compare (c : compare_symbol) (this x : Vector T) : Mask :=
  MkMask (relational c (m_data this) (m_data x)).

(** The implicit copy assignment [operator=]. *)
Definition copy_assign (this x : Vector T) : result (Vector T) :=
  Ok (MkVector (m_data x)).


Definition assign (this v : Vector T) (m : Mask) : Vector T :=
  if data m then MkVector (m_data v) else this.

Definition pack (this : Vector T) (m1 : Mask) (v2 : Vector T) (m2 : Mask)
  : bool * packed T :=
  if negb (data m1) && data m2
  then (true, MkPacked (MkVector (m_data v2)) (MkMask true) v2 (MkMask false))
  else (data m1, MkPacked this m1 v2 m2).

(** Reductions. *)
Definition min (this : Vector T) : T := m_data this.
Definition max (this : Vector T) : T := m_data this.
Definition product (this : Vector T) : T := m_data this.
Definition sum (this : Vector T) : T := m_data this.
Definition partialSum (this : Vector T) : Vector T := this.
Definition min_masked (this : Vector T) (_ : Mask) : T := m_data this.
Definition max_masked (this : Vector T) (_ : Mask) : T := m_data this.

Definition product_masked (this : Vector T) (m : Mask) : T :=
  if data m then m_data this else static_cast_int 1.

Definition sum_masked (this : Vector T) (m : Mask) : T :=
  if data m then m_data this else static_cast_int 0.

(** [shifted(amount, shiftIn)] asserts on the amount; [shifted(amount)] has
    no assertion. *)
Definition shifted_fill (this : Vector T) (amount : Z) (shiftIn : Vector T)
  : result (Vector T) :=
  _ <- VC_ASSERT ((-1 <=? amount) && (amount <=? 1)) ;;
  Ok (if amount =? 0 then this else shiftIn).

Definition shifted (this : Vector T) (amount : Z) : result (Vector T) :=
  Ok (if amount =? 0 then this else Zero).

Definition rotated (this : Vector T) (_ : Z) : Vector T := this.
Definition reversed (this : Vector T) : Vector T := this.
Definition sorted (this : Vector T) : Vector T := this.

(** *** conditional_assign *)

(** The body of the first [Vc_CONDITIONAL_ASSIGN]: [lhs op__ rhs] under a
    full mask, nothing otherwise.  The result is the new [lhs]. *)
Definition Vc_CONDITIONAL_ASSIGN
    (op__ : Vector T -> Vector T -> result (Vector T))
    (lhs : Vector T) (mask : Mask) (rhs : Vector T) : result (Vector T) :=
  if isFull mask then op__ lhs rhs else Ok lhs.

(** The body of the second [Vc_CONDITIONAL_ASSIGN]:
    [mask.isFull() ? (expr__) : lhs].  The result is the returned vector and
    the new [lhs]. *)
Definition Vc_CONDITIONAL_ASSIGN_unary
    (expr__ : Vector T -> result (Vector T * Vector T))
    (lhs : Vector T) (mask : Mask) : result (Vector T * Vector T) :=
  if isFull mask then expr__ lhs else Ok (lhs, lhs).

(** [conditional_assign<O>(lhs, mask, rhs)]: one overload per tag of the
    first table, whose body holds [lhs op__ rhs]; for the other tags
    [enable_if] leaves no overload. *)
Definition conditional_assign (O : Operator)
    (lhs : Vector T) (mask : Mask) (rhs : Vector T) : result (Vector T) :=
  match O with
  | Assign => Vc_CONDITIONAL_ASSIGN copy_assign lhs mask rhs
  | PlusAssign =>
      requires Add (Vc_CONDITIONAL_ASSIGN (operator_assign Add) lhs mask rhs)
  | MinusAssign =>
      requires Sub (Vc_CONDITIONAL_ASSIGN (operator_assign Sub) lhs mask rhs)
  | MultiplyAssign =>
      requires Mul (Vc_CONDITIONAL_ASSIGN (operator_assign Mul) lhs mask rhs)
  | DivideAssign =>
      requires Div (Vc_CONDITIONAL_ASSIGN (operator_assign Div) lhs mask rhs)
  | RemainderAssign =>
      requires Rem (Vc_CONDITIONAL_ASSIGN (operator_assign Rem) lhs mask rhs)
  | XorAssign =>
      requires BitXor (Vc_CONDITIONAL_ASSIGN (operator_assign BitXor) lhs mask rhs)
  | AndAssign =>
      requires BitAnd (Vc_CONDITIONAL_ASSIGN (operator_assign BitAnd) lhs mask rhs)
  | OrAssign =>
      requires BitOr (Vc_CONDITIONAL_ASSIGN (operator_assign BitOr) lhs mask rhs)
  | LeftShiftAssign =>
      requires Shl (Vc_CONDITIONAL_ASSIGN (operator_assign Shl) lhs mask rhs)
  | RightShiftAssign =>
      requires Shr (Vc_CONDITIONAL_ASSIGN (operator_assign Shr) lhs mask rhs)
  | PostIncrement | PreIncrement | PostDecrement | PreDecrement => Fail IllFormed
  end.

(** [conditional_assign<O>(lhs, mask)]: one overload per tag of the second
    table. *)
Definition conditional_assign_unary (O : Operator)
    (lhs : Vector T) (mask : Mask) : result (Vector T * Vector T) :=
  match O with
  | PostIncrement => Vc_CONDITIONAL_ASSIGN_unary post_increment lhs mask
  | PreIncrement => Vc_CONDITIONAL_ASSIGN_unary pre_increment lhs mask
  | PostDecrement => Vc_CONDITIONAL_ASSIGN_unary post_decrement lhs mask
  | PreDecrement => Vc_CONDITIONAL_ASSIGN_unary pre_decrement lhs mask
  | _ => Fail IllFormed
  end.

End VectorOps.

(** The tags of the two tables. *)
Definition value_operators : list Operator :=
  [Assign; PlusAssign; MinusAssign; MultiplyAssign; DivideAssign;
   RemainderAssign; XorAssign; AndAssign; OrAssign; LeftShiftAssign;
   RightShiftAssign].

Definition unary_operators : list Operator :=
  [PostIncrement; PreIncrement; PostDecrement; PreDecrement].

(** ** Vocabulary of the properties *)

(** Absorption by [pack]: [m1] was false and [m2] was true, [*this] took the
    value of [v2], [m1] became true and [m2] became false. *)
Definition absorbed {T : Type} (m1 : Mask) (v2 : Vector T) (m2 : Mask)
    (after : packed T) : Prop :=
  data m1 = false /\ data m2 = true
  /\ pk_this after = v2
  /\ pk_m1 after = MkMask true
  /\ pk_m2 after = MkMask false.

(** The identity laws as the masks they compute. *)
Section IdentityLaws.

Context {T : Type} {A : Arithmetic T}.

(** The mask of [v + Vector(0) == v]. *)
Definition plus_zero_equals (v : Vector T) : result Mask :=
  r <- operator_binary Add v (broadcast 0) ;; Ok (operator_compare CmpEq r v).

(** The mask of [v * Vector(1) == v]. *)
Definition times_one_equals (v : Vector T) : result Mask :=
  r <- operator_binary Mul v (broadcast 1) ;; Ok (operator_compare CmpEq r v).

End IdentityLaws.

(** The integer entry types of the vector types Vc declares. *)
Definition vc_kind (k : Integer.kind) : Prop :=
  k = Integer.int_kind \/ k = Integer.uint_kind
  \/ k = Integer.short_kind \/ k = Integer.ushort_kind.

(** The mantissa [2 ^ n]. *)
Definition pow2 (n : positive) : positive := Pos.iter xO 1%positive n.

(** ** Further members of Vector<T> *)

(** *** Unary operators of the entry types *)

(** The builtin [-a], [~a] and [!a] on an entry. *)
Class Unary (T : Type) : Type := {
  negate : T -> result T;
  complement : T -> result T;
  logical_not : T -> bool
}.

(** On integers [-a] and [~a] are computed in the promoted type and stored
    back; [!a] is [a == 0]. *)
Definition integer_unary (k : Integer.kind) : Unary Z :=
  {| negate := fun a => Integer.store k (- a);
     complement := fun a => Integer.store k (Z.lnot a);
     logical_not := fun a => a =? 0 |}.

(** On floating-point numbers [-a] flips the sign, [~a] does not exist and
    [!a] is [a == 0]. *)
Definition floating_unary : Unary spec_float :=
  {| negate := fun a => Ok (SFopp a);
     complement := fun _ => Fail IllFormed;
     logical_not := fun a => SFeqb a (S754_zero false) |}.

#[global] Instance int_Unary : Unary int := integer_unary Integer.int_kind.
#[global] Instance unsigned_int_Unary : Unary unsigned_int :=
  integer_unary Integer.uint_kind.
#[global] Instance short_Unary : Unary short := integer_unary Integer.short_kind.
#[global] Instance unsigned_short_Unary : Unary unsigned_short :=
  integer_unary Integer.ushort_kind.
#[global] Instance float_Unary : Unary float := floating_unary.
#[global] Instance double_Unary : Unary double := floating_unary.

Section UnaryOps.

Context {T : Type} {A : Arithmetic T} {U : Unary T}.

(** [operator!]: [Mask(!m_data)]. *)
Definition operator_not (this : Vector T) : Mask :=
  MkMask (logical_not (m_data this)).

(** [operator~]: [Vector(~m_data)]; the [static_assert] lets only integral
    entry types through. *)
Definition operator_complement (this : Vector T) : result (Vector T) :=
  d <- complement (m_data this) ;; Ok (MkVector d).

(** Unary [operator-]: [-m_data]. *)
Definition operator_minus (this : Vector T) : result (Vector T) :=
  d <- negate (m_data this) ;; Ok (MkVector d).

(** Unary [operator+]: [*this]. *)
Definition operator_plus (this : Vector T) : Vector T := this.

End UnaryOps.

(** *** Conversion between integer vectors *)

(** [Vector(Vector<U> x)], implicit or explicit, and [staticCast<V2>()] for
    integer entry types: the entry goes through [static_cast] to the entry
    type [to] of the target. *)
Definition converted (to : Integer.kind) (x : Vector Z) : Vector Z :=
  MkVector (Integer.convert to (m_data x)).

Definition staticCast (to : Integer.kind) (this : Vector Z) : Vector Z :=
  MkVector (Integer.convert to (m_data this)).

(** *** Callbacks *)

Section Callbacks.

Context {T : Type} {St : Type}.

(** [apply(f)]: [Vector(f(m_data))].  The callback may have effects: it
    takes and returns the state of the program. *)
Definition apply (f : T -> St -> T * St) (this : Vector T) (s : St)
  : Vector T * St :=
  let (y, s') := f (m_data this) s in (MkVector y, s').

(** [apply(f, mask)] *)
Definition apply_masked (f : T -> St -> T * St) (this : Vector T) (mask : Mask)
    (s : St) : Vector T * St :=
  if data mask
  then let (y, s') := f (m_data this) s in (MkVector y, s')
  else (this, s).

(** [call(f)] and [callWithValuesSorted(f)]: [f(m_data)], for its effect. *)
Definition call (f : T -> St -> St) (this : Vector T) (s : St) : St :=
  f (m_data this) s.

Definition callWithValuesSorted (f : T -> St -> St) (this : Vector T) (s : St) : St :=
  f (m_data this) s.

(** [call(f, mask)] *)
Definition call_masked (f : T -> St -> St) (this : Vector T) (mask : Mask) (s : St)
  : St :=
  if data mask then f (m_data this) s else s.

(** [fill(f)] for an [f] that takes the lane index: [m_data = f(0)].  The
    result is the new [*this]. *)
Definition fill (f : Z -> St -> T * St) (this : Vector T) (s : St) : Vector T * St :=
  let (y, s') := f 0 s in (MkVector y, s').

(** [generate(gen)]: [gen(0)]. *)
Definition generate (gen : Z -> St -> T * St) (s : St) : Vector T * St :=
  let (y, s') := gen 0 s in (MkVector y, s').

End Callbacks.

(** A callback that also counts how often it is called. *)
Definition counting {T St : Type} (f : T -> St -> St) (x : T) (sn : St * nat)
  : St * nat :=
  (f x (fst sn), S (snd sn)).

(** *** Masks of the properties *)

(** How many of two one-lane masks are set. *)
Definition active (m1 m2 : Mask) : nat :=
  ((if data m1 then 1 else 0) + (if data m2 then 1 else 0))%nat.

(** The mask that selects the lanes [k] does not. *)
Definition inverted (k : Mask) : Mask := MkMask (negb (data k)).

(** The six comparison masks of two vectors are those of a total order:
    exactly one of [<], [==], [>] is set and [<=], [>=], [!=] follow. *)
Definition totally_ordered {T : Type} {A : Arithmetic T} (v w : Vector T) : Prop :=
  ((if data (operator_compare CmpLt v w) then 1 else 0)
   + (if data (operator_compare CmpEq v w) then 1 else 0)
   + (if data (operator_compare CmpGt v w) then 1 else 0) = 1)%nat
  /\ data (operator_compare CmpLe v w)
     = data (operator_compare CmpLt v w) || data (operator_compare CmpEq v w)
  /\ data (operator_compare CmpGe v w)
     = data (operator_compare CmpGt v w) || data (operator_compare CmpEq v w)
  /\ data (operator_compare CmpNe v w) = negb (data (operator_compare CmpEq v w))
  /\ operator_compare CmpGt v w = operator_compare CmpLt w v
  /\ operator_compare CmpGe v w = operator_compare CmpLe w v.

(** * Properties *)

(** ** Helper facts *)

Lemma Vector_eta {T : Type} (v : Vector T) : MkVector (m_data v) = v.
Proof. destruct v; reflexivity. Qed.

Lemma VC_ASSERT_fails (c : bool) {B : Type} (k : unit -> result B) :
  c = false -> (u <- VC_ASSERT c ;; k u) = Fail AssertionFailed.
Proof. intros ->; reflexivity. Qed.

Lemma VC_ASSERT_passes (c : bool) {B : Type} (k : unit -> result B) :
  c = true -> (u <- VC_ASSERT c ;; k u) = k tt.
Proof. intros ->; reflexivity. Qed.

Lemma requires_operator_assign {T : Type} {A : Arithmetic T}
    (s : symbol) (lhs rhs : Vector T) :
  requires s (operator_assign s lhs rhs) = operator_assign s lhs rhs.
Proof.
  unfold operator_assign, requires.
  destruct (has_operator s); reflexivity.
Qed.

Lemma requires_cases {T : Type} {A : Arithmetic T} {B : Type}
    (s : symbol) (body : result B) :
  requires s body = body \/ requires s body = Fail IllFormed.
Proof.
  unfold requires. destruct (has_operator s); [left | right]; reflexivity.
Qed.

(** ** conditional_assign with a right-hand side *)

(** C1.  Under a full mask each of the eleven value forms of
    [conditional_assign] is the unmasked compound operator of its tag applied
    to [lhs] ([=] for [Assign], [+=] for [PlusAssign], ...).  For the
    [Vector<int>] broadcasting 5: comparing [> Vector<int>(3)] gives the
    all-true mask, [sum(mask)] is 5, [mask.isFull()] holds and
    [conditional_assign<PlusAssign>(v, mask, Vector<int>(2))] leaves 7 in [v]. *)
Theorem conditional_assign_full_mask :
  (forall (T : Type) (A : Arithmetic T) (lhs rhs : Vector T) (mask : Mask),
      isFull mask = true ->
      conditional_assign Assign lhs mask rhs = Ok rhs
      /\ conditional_assign PlusAssign lhs mask rhs = operator_assign Add lhs rhs
      /\ conditional_assign MinusAssign lhs mask rhs = operator_assign Sub lhs rhs
      /\ conditional_assign MultiplyAssign lhs mask rhs = operator_assign Mul lhs rhs
      /\ conditional_assign DivideAssign lhs mask rhs = operator_assign Div lhs rhs
      /\ conditional_assign RemainderAssign lhs mask rhs = operator_assign Rem lhs rhs
      /\ conditional_assign XorAssign lhs mask rhs = operator_assign BitXor lhs rhs
      /\ conditional_assign AndAssign lhs mask rhs = operator_assign BitAnd lhs rhs
      /\ conditional_assign OrAssign lhs mask rhs = operator_assign BitOr lhs rhs
      /\ conditional_assign LeftShiftAssign lhs mask rhs = operator_assign Shl lhs rhs
      /\ conditional_assign RightShiftAssign lhs mask rhs = operator_assign Shr lhs rhs)
  /\ (let v : Vector int := broadcast 5 in
      let mask := operator_compare CmpGt v (broadcast 3) in
      mask = MkMask true
      /\ sum_masked v mask = 5
      /\ isFull mask = true
      /\ conditional_assign PlusAssign v mask (broadcast 2) = Ok (broadcast 7)).
Proof.
  split.
  - intros T A lhs rhs mask Hfull.
    unfold conditional_assign, Vc_CONDITIONAL_ASSIGN.
    rewrite Hfull, !requires_operator_assign.
    unfold copy_assign; rewrite Vector_eta.
    repeat split.
  - cbv zeta. repeat split.
Qed.

Lemma conditional_assign_full_mask_witness :
  isFull (MkMask true) = true
  /\ conditional_assign MultiplyAssign (broadcast 6 : Vector int) (MkMask true)
       (broadcast 7) = Ok (broadcast 42).
Proof.
  split; [reflexivity |].
  destruct (proj1 conditional_assign_full_mask int int_Arithmetic
              (broadcast 6) (broadcast 7) (MkMask true) eq_refl)
    as (_ & _ & _ & Hmul & _).
  rewrite Hmul; reflexivity.
Defined.

(** C10.  Under a mask that is not full each of the eleven value forms of
    [conditional_assign] leaves [lhs] as it was, for every entry type that
    has the operator of the tag (for any other the call is ill-formed
    whatever the mask). *)
Theorem conditional_assign_partial_mask :
  forall (T : Type) (A : Arithmetic T) (O : Operator)
         (lhs rhs : Vector T) (mask : Mask),
    In O value_operators ->
    isFull mask = false ->
    conditional_assign O lhs mask rhs <> Fail IllFormed ->
    conditional_assign O lhs mask rhs = Ok lhs.
Proof.
  intros T A O lhs rhs mask HO Hpartial.
  unfold value_operators in HO; simpl in HO.
  repeat (destruct HO as [<- | HO];
          [unfold conditional_assign, Vc_CONDITIONAL_ASSIGN;
           rewrite Hpartial;
           try match goal with
             | |- requires ?s ?b <> _ -> _ =>
                 destruct (requires_cases s b) as [-> | ->]
             end;
           intros Hwf; try reflexivity; contradiction Hwf; reflexivity |]).
  contradiction.
Qed.

Lemma conditional_assign_partial_mask_witness :
  length value_operators = 11%nat
  /\ conditional_assign DivideAssign (broadcast 6 : Vector int) (MkMask false)
       (broadcast 0) = Ok (broadcast 6).
Proof.
  split; [reflexivity |].
  apply (conditional_assign_partial_mask int int_Arithmetic DivideAssign
           (broadcast 6) (broadcast 0) (MkMask false)).
  - simpl; tauto.
  - reflexivity.
  - discriminate.
Defined.

(** [double] has no [%]: the call with [RemainderAssign] is ill-formed under
    any mask, while the one with [PlusAssign] leaves [lhs] alone under a mask
    that is not full. *)
Example conditional_assign_double :
  conditional_assign RemainderAssign (broadcast 6 : Vector double) (MkMask false)
    (broadcast 4) = Fail IllFormed
  /\ conditional_assign RemainderAssign (broadcast 6 : Vector double) (MkMask true)
       (broadcast 4) = Fail IllFormed
  /\ conditional_assign PlusAssign (broadcast 6 : Vector double) (MkMask false)
       (broadcast 4) = Ok (broadcast 6)
  /\ conditional_assign PlusAssign (broadcast 6 : Vector double) (MkMask true)
       (broadcast 4) = Ok (broadcast 10).
Proof. repeat split. Qed.

(** ** conditional_assign without a right-hand side *)

(** C2.  For each of the four increment/decrement tags
    [conditional_assign<Op>(lhs, m)] is [m.isFull() ? op(lhs) : lhs]: under a
    full mask the operator is applied to [lhs]; under a mask that is not full
    [lhs] keeps its value and that value is returned. *)
Theorem conditional_assign_unary_spec :
  forall (T : Type) (A : Arithmetic T) (lhs : Vector T) (m : Mask),
    (conditional_assign_unary PreIncrement lhs m
       = if isFull m then pre_increment lhs else Ok (lhs, lhs))
    /\ (conditional_assign_unary PostIncrement lhs m
       = if isFull m then post_increment lhs else Ok (lhs, lhs))
    /\ (conditional_assign_unary PreDecrement lhs m
       = if isFull m then pre_decrement lhs else Ok (lhs, lhs))
    /\ (conditional_assign_unary PostDecrement lhs m
       = if isFull m then post_decrement lhs else Ok (lhs, lhs))
    /\ (isFull m = false ->
        forall O, In O unary_operators ->
                  conditional_assign_unary O lhs m = Ok (lhs, lhs)).
Proof.
  intros T A lhs m.
  repeat split.
  intros Hpartial O HO.
  unfold unary_operators in HO; simpl in HO.
  repeat (destruct HO as [<- | HO];
          [unfold conditional_assign_unary, Vc_CONDITIONAL_ASSIGN_unary;
           rewrite Hpartial; reflexivity |]).
  contradiction.
Qed.

Lemma conditional_assign_unary_spec_witness :
  conditional_assign_unary PostIncrement (broadcast 5 : Vector int) (MkMask true)
    = Ok (broadcast 5, broadcast 6)
  /\ conditional_assign_unary PreIncrement (broadcast 5 : Vector int) (MkMask true)
    = Ok (broadcast 6, broadcast 6)
  /\ conditional_assign_unary PreDecrement (broadcast 5 : Vector int) (MkMask false)
    = Ok (broadcast 5, broadcast 5).
Proof.
  destruct (conditional_assign_unary_spec int int_Arithmetic (broadcast 5) (MkMask true))
    as (Hpre & Hpost & _).
  destruct (conditional_assign_unary_spec int int_Arithmetic (broadcast 5) (MkMask false))
    as (_ & _ & _ & _ & Hpartial).
  split; [| split].
  - rewrite Hpost; reflexivity.
  - rewrite Hpre; reflexivity.
  - apply (Hpartial eq_refl PreDecrement); simpl; tauto.
Defined.

(** ** pack *)

(** [pack] with [m1] already true returns true although nothing is absorbed. *)
Lemma pack_true_without_absorption :
  let this : Vector int := broadcast 5 in
  let v2 : Vector int := broadcast 9 in
  let m1 := MkMask true in
  let m2 := MkMask false in
  fst (pack this m1 v2 m2) = true
  /\ ~ absorbed m1 v2 m2 (snd (pack this m1 v2 m2))
  /\ ~ (fst (pack this m1 v2 m2) = true
        <-> absorbed m1 v2 m2 (snd (pack this m1 v2 m2))).
Proof.
  cbv zeta.
  assert (Hno : ~ absorbed (MkMask true) (broadcast 9 : Vector int) (MkMask false)
                  (snd (pack (broadcast 5 : Vector int) (MkMask true)
                          (broadcast 9) (MkMask false)))).
  { intros (Hm1 & _). discriminate Hm1. }
  split; [reflexivity | split; [exact Hno |]].
  intros [Hto _]. apply Hno, Hto. reflexivity.
Qed.

(** C3, amended.  [pack] absorbs exactly when [m1] was false and [m2] was
    true; it returns true if and only if it absorbed or [m1] was true
    already, which is the value [m1] has after the call; without absorption
    nothing changes. *)
Theorem pack_returns_m1_after :
  forall (T : Type) (A : Arithmetic T) (this v2 : Vector T) (m1 m2 : Mask),
    (absorbed m1 v2 m2 (snd (pack this m1 v2 m2))
       <-> data m1 = false /\ data m2 = true)
    /\ (fst (pack this m1 v2 m2) = true
       <-> absorbed m1 v2 m2 (snd (pack this m1 v2 m2)) \/ data m1 = true)
    /\ fst (pack this m1 v2 m2) = data (pk_m1 (snd (pack this m1 v2 m2)))
    /\ (~ absorbed m1 v2 m2 (snd (pack this m1 v2 m2)) ->
        snd (pack this m1 v2 m2) = MkPacked this m1 v2 m2).
Proof.
  intros T A this v2 [[|]] [[|]]; unfold pack, absorbed; cbn;
    rewrite ?Vector_eta.
  - split; [| split; [| split]]; try reflexivity.
    + split; [intros (H & _) | intros (H & _)]; discriminate H.
    + split; [right; reflexivity | reflexivity].
  - split; [| split; [| split]]; try reflexivity.
    + split; [intros (H & _) | intros (H & _)]; discriminate H.
    + split; [right; reflexivity | reflexivity].
  - split; [| split; [| split]]; try reflexivity.
    + split; [tauto | intros _; repeat split].
    + split; [left; repeat split | reflexivity].
    + intros H; exfalso; apply H; repeat split.
  - split; [| split; [| split]]; try reflexivity.
    + split; [intros (_ & H & _) | intros (_ & H)]; discriminate H.
    + split; [discriminate |].
      intros [(_ & H & _) | H]; discriminate H.
Qed.

Lemma pack_returns_m1_after_witness :
  pack (broadcast 5 : Vector int) (MkMask true) (broadcast 9) (MkMask true)
    = (true, MkPacked (broadcast 5) (MkMask true) (broadcast 9) (MkMask true))
  /\ fst (pack (broadcast 5 : Vector int) (MkMask false) (broadcast 9) (MkMask false))
     = false.
Proof.
  destruct (pack_returns_m1_after int int_Arithmetic (broadcast 5) (broadcast 9)
              (MkMask true) (MkMask true)) as (_ & Hret & _ & Hframe).
  destruct (pack_returns_m1_after int int_Arithmetic (broadcast 5) (broadcast 9)
              (MkMask false) (MkMask false)) as (_ & _ & Hm1 & _).
  split.
  - apply injective_projections.
    + apply Hret; right; reflexivity.
    + apply Hframe. intros (H & _); discriminate H.
  - rewrite Hm1; reflexivity.
Defined.

(** C4.  With [m1] false and [m2] true [pack] returns true, sets [m1] to true
    and [m2] to false, and [*this] holds the value [v2] had; with [m1] true
    it returns true and changes nothing. *)
Theorem pack_compaction :
  forall (T : Type) (A : Arithmetic T) (v v2 : Vector T) (m1 m2 : Mask),
    (data m1 = false -> data m2 = true ->
     pack v m1 v2 m2 = (true, MkPacked v2 (MkMask true) v2 (MkMask false)))
    /\ (data m1 = true ->
        pack v m1 v2 m2 = (true, MkPacked v m1 v2 m2)).
Proof.
  intros T A v v2 m1 m2; unfold pack; split.
  - intros -> ->; cbn. rewrite Vector_eta; reflexivity.
  - intros Hm1; rewrite Hm1; reflexivity.
Qed.

Lemma pack_compaction_witness :
  pack (broadcast 5 : Vector int) (MkMask false) (broadcast 9) (MkMask true)
    = (true, MkPacked (broadcast 9) (MkMask true) (broadcast 9) (MkMask false))
  /\ pack (broadcast 5 : Vector int) (MkMask true) (broadcast 9) (MkMask true)
    = (true, MkPacked (broadcast 5) (MkMask true) (broadcast 9) (MkMask true)).
Proof.
  split.
  - apply (proj1 (pack_compaction int int_Arithmetic (broadcast 5) (broadcast 9)
                    (MkMask false) (MkMask true))); reflexivity.
  - apply (proj2 (pack_compaction int int_Arithmetic (broadcast 5) (broadcast 9)
                    (MkMask true) (MkMask true))); reflexivity.
Defined.

(** ** Reductions *)

(** C5.  Under a mask that selects no lane [sum] is [EntryType(0)] and
    [product] is [EntryType(1)]; under a mask that selects the lane both are
    the value of the lane. *)
Theorem masked_sum_product :
  forall (T : Type) (A : Arithmetic T) (v : Vector T) (k : Mask),
    (data k = false ->
     sum_masked v k = static_cast_int 0 /\ product_masked v k = static_cast_int 1)
    /\ (data k = true ->
        sum_masked v k = m_data v /\ product_masked v k = m_data v).
Proof.
  intros T A v k; unfold sum_masked, product_masked.
  split; intros ->; split; reflexivity.
Qed.

Lemma masked_sum_product_witness :
  (sum_masked (broadcast 5 : Vector int) (MkMask false) = 0
   /\ product_masked (broadcast 5 : Vector int) (MkMask false) = 1)
  /\ (sum_masked (broadcast 5 : Vector int) (MkMask true) = 5
      /\ product_masked (broadcast 5 : Vector int) (MkMask true) = 5)
  /\ (sum_masked (broadcast 5 : Vector double) (MkMask false) = S754_zero false
      /\ product_masked (broadcast 5 : Vector double) (MkMask false)
         = S754_finite false 4503599627370496 (-52)).
Proof.
  split; [| split].
  - exact (proj1 (masked_sum_product int int_Arithmetic (broadcast 5) (MkMask false))
             eq_refl).
  - exact (proj2 (masked_sum_product int int_Arithmetic (broadcast 5) (MkMask true))
             eq_refl).
  - exact (proj1 (masked_sum_product double double_Arithmetic (broadcast 5)
                    (MkMask false))
             eq_refl).
Defined.

(** C9.  The masked [min] and [max] do not look at the mask: for every mask,
    the one that selects no lane included, they are the unmasked [min] and
    [max], the value of the lane. *)
Theorem masked_min_max_ignore_mask :
  forall (T : Type) (A : Arithmetic T) (v : Vector T) (m : Mask),
    min_masked v m = min v
    /\ max_masked v m = max v
    /\ min_masked v (MkMask false) = m_data v
    /\ max_masked v (MkMask false) = m_data v.
Proof.
  intros T A v m; unfold min_masked, max_masked, min, max.
  split; [| split; [| split]]; reflexivity.
Qed.

(** ** shifted *)

(** C7.  [v.shifted(0)] is [v], and [v.shifted(Size)] without a fill vector
    is the zero vector. *)
Theorem shifted_boundary :
  forall (T : Type) (A : Arithmetic T) (v : Vector T),
    shifted v 0 = Ok v
    /\ shifted v Size = Ok Zero
    /\ m_data (Zero : Vector T) = static_cast_int 0.
Proof.
  intros T A v; unfold shifted, Size; cbn.
  split; [| split]; reflexivity.
Qed.

(** Shifting by one lane is outside [-(Size-1), Size-1], yet neither form
    stops on an assertion. *)
Lemma shifted_by_Size_not_rejected :
  let v : Vector int := broadcast 5 in
  let fill : Vector int := broadcast 9 in
  Size - 1 < 1
  /\ shifted v 1 = Ok Zero
  /\ shifted_fill v 1 fill = Ok fill
  /\ shifted v 1 <> Fail AssertionFailed
  /\ shifted_fill v 1 fill <> Fail AssertionFailed.
Proof.
  cbv zeta; unfold Size.
  split; [lia |].
  split; [reflexivity |].
  split; [reflexivity |].
  split; discriminate.
Qed.

(** C8, amended.  Only [shifted(amount, fill)] carries an assertion, and it
    stops exactly the amounts outside [-Size, Size]; inside that range it
    returns [*this] for 0 and [fill] otherwise.  [shifted(amount)] has no
    assertion: it returns for every amount, [*this] for 0 and the zero vector
    otherwise. *)
Theorem shifted_assertion :
  forall (T : Type) (A : Arithmetic T) (v fill : Vector T) (amount : Z),
    (shifted_fill v amount fill = Fail AssertionFailed
       <-> amount < - Size \/ Size < amount)
    /\ (- Size <= amount <= Size ->
        shifted_fill v amount fill = Ok (if amount =? 0 then v else fill))
    /\ shifted v amount = Ok (if amount =? 0 then v else Zero).
Proof.
  intros T A v fill amount; unfold shifted_fill, shifted, Size.
  split; [| split; [| reflexivity]].
  - destruct ((-1 <=? amount) && (amount <=? 1)) eqn:Hc.
    + rewrite VC_ASSERT_passes by reflexivity.
      split; [discriminate | lia].
    + rewrite VC_ASSERT_fails by reflexivity.
      split; [lia | reflexivity].
  - intros Hrange.
    rewrite VC_ASSERT_passes by lia; reflexivity.
Qed.

Lemma shifted_assertion_witness :
  shifted_fill (broadcast 5 : Vector int) (-1) (broadcast 9) = Ok (broadcast 9)
  /\ shifted_fill (broadcast 5 : Vector int) 2 (broadcast 9) = Fail AssertionFailed
  /\ shifted (broadcast 5 : Vector int) 2 = Ok (broadcast 0).
Proof.
  split; [| split].
  - apply (proj1 (proj2 (shifted_assertion int int_Arithmetic (broadcast 5)
                           (broadcast 9) (-1)))).
    unfold Size; lia.
  - apply (proj1 (shifted_assertion int int_Arithmetic (broadcast 5)
                    (broadcast 9) 2)).
    unfold Size; lia.
  - apply (proj2 (proj2 (shifted_assertion int int_Arithmetic (broadcast 5)
                           (broadcast 9) 2))).
Defined.

(** ** Identity laws *)

(** *** Integer entries *)

Ltac split_leb :=
  repeat match goal with
    | |- context [?a <=? ?b] => destruct (Z.leb_spec a b)
    end.

Lemma store_representable (k : Integer.kind) (v : Z) :
  vc_kind k -> Integer.representable k v = true -> Integer.store k v = Ok v.
Proof.
  intros Hk Hv.
  assert (Hconv : Integer.convert k v = v
                  /\ (Integer.is_signed (Integer.promote k)
                      && negb (Integer.representable (Integer.promote k) v)) = false).
  { destruct Hk as [-> | [-> | [-> | ->]]];
      revert Hv;
      unfold Integer.representable, Integer.convert, Integer.promote,
        Integer.min_value, Integer.max_value; cbn; intros Hv.
    all: split_leb; cbn; try split; try reflexivity; try discriminate;
      try (Z.div_mod_to_equations; lia). }
  unfold Integer.store. destruct Hconv as [-> ->]. reflexivity.
Qed.

Lemma convert_small (k : Integer.kind) :
  vc_kind k -> Integer.convert k 0 = 0 /\ Integer.convert k 1 = 1.
Proof.
  intros [-> | [-> | [-> | ->]]]; split; reflexivity.
Qed.

Lemma integer_identity_laws (k : Integer.kind) (v : Vector Z) :
  vc_kind k ->
  Integer.representable k (m_data v) = true ->
  plus_zero_equals (A := Integer.arithmetic k) v = Ok (MkMask true)
  /\ times_one_equals (A := Integer.arithmetic k) v = Ok (MkMask true).
Proof.
  intros Hk Hv.
  destruct (convert_small k Hk) as [H0 H1].
  unfold plus_zero_equals, times_one_equals, operator_binary, operator_compare,
    broadcast; cbn.
  rewrite H0, H1, Z.add_0_r, Z.mul_1_r, (store_representable k _ Hk Hv); cbn.
  rewrite Z.eqb_refl. split; reflexivity.
Qed.

(** *** Floating-point entries *)

Lemma SFeqb_refl (x : spec_float) : SFeqb x x = negb (Floating.is_nan x).
Proof.
  destruct x as [s | s | | s m e]; cbn; try reflexivity.
  - destruct s; reflexivity.
  - unfold SFeqb, SFcompare.
    rewrite Z.compare_refl, Pos.compare_cont_refl.
    destruct s; reflexivity.
Qed.

Lemma SFadd_zero (prec emax : Z) (x : spec_float) :
  SFeqb (SFadd prec emax x (S754_zero false)) x = SFeqb x x.
Proof.
  destruct x as [[|] | [|] | | s m e]; reflexivity.
Qed.

Lemma iter_pos_iter {B : Type} (f : B -> B) (p : positive) (x : B) :
  iter_pos f p x = Pos.iter f x p.
Proof.
  revert x; induction p as [p IH | p IH |]; intros x; cbn.
  - rewrite !IH, !Pos.iter_swap. reflexivity.
  - rewrite !IH. reflexivity.
  - reflexivity.
Qed.

Lemma digits2_pos_mul_pow2 (m n : positive) :
  digits2_pos (m * pow2 n) = (digits2_pos m + n)%positive.
Proof.
  unfold pow2.
  induction n as [| n IH] using Pos.peano_ind.
  - cbn. rewrite Pos.mul_xO_r, Pos.mul_1_r. cbn. lia.
  - rewrite Pos.iter_succ, Pos.mul_xO_r. cbn. rewrite IH. lia.
Qed.

Lemma shr_mul_pow2 (m n : positive) :
  iter_pos shr_1 n {| shr_m := Zpos (m * pow2 n); shr_r := false; shr_s := false |}
  = {| shr_m := Zpos m; shr_r := false; shr_s := false |}.
Proof.
  rewrite iter_pos_iter. unfold pow2.
  induction n as [| n IH] using Pos.peano_ind.
  - cbn. rewrite Pos.mul_xO_r, Pos.mul_1_r. reflexivity.
  - rewrite Pos.iter_succ_r, (Pos.iter_succ n positive xO), Pos.mul_xO_r.
    cbn. exact IH.
Qed.

(** Multiplying a canonical finite number by [2 ^ n * 2 ^ (- n)] rounds back
    to the number itself. *)
Lemma SFmul_one_finite (prec emax : Z) (s : bool) (m : positive) (e : Z)
    (n : positive) :
  bounded prec emax m e = true ->
  SFmul prec emax (S754_finite s m e) (S754_finite false (pow2 n) (Zneg n))
  = S754_finite s m e.
Proof.
  intros Hb. unfold bounded, canonical_mantissa in Hb.
  apply andb_prop in Hb. destruct Hb as [Hcan Hle].
  apply Z.eqb_eq in Hcan.
  unfold SFmul. rewrite xorb_false_r.
  unfold binary_round_aux.
  assert (H1 : shr_fexp prec emax (Zpos (m * pow2 n)) (e + Zneg n) loc_Exact
               = ({| shr_m := Zpos m; shr_r := false; shr_s := false |}, e)).
  { unfold shr_fexp, Zdigits2. rewrite digits2_pos_mul_pow2.
    replace (Zpos (digits2_pos m + n) + (e + Zneg n))
      with (Zpos (digits2_pos m) + e) by lia.
    rewrite Hcan.
    replace (e - (e + Zneg n)) with (Zpos n) by lia.
    unfold shr, shr_record_of_loc. rewrite shr_mul_pow2. f_equal. lia. }
  rewrite H1. cbn [shr_m loc_of_shr_record round_nearest_even].
  assert (H2 : shr_fexp prec emax (Zpos m) e loc_Exact
               = ({| shr_m := Zpos m; shr_r := false; shr_s := false |}, e)).
  { unfold shr_fexp, Zdigits2. rewrite Hcan, Z.sub_diag. reflexivity. }
  rewrite H2. cbn [shr_m]. rewrite Hle. reflexivity.
Qed.

Lemma SFmul_one (prec emax : Z) (x : spec_float) (n : positive) :
  valid_binary prec emax x = true ->
  SFeqb (SFmul prec emax x (S754_finite false (pow2 n) (Zneg n))) x = SFeqb x x.
Proof.
  destruct x as [[|] | [|] | | s m e]; try reflexivity.
  cbn [valid_binary]. intros Hb. rewrite SFmul_one_finite by exact Hb.
  reflexivity.
Qed.

Lemma floating_identity_laws (f : Floating.format) (v : Vector spec_float) :
  f = Floating.binary32 \/ f = Floating.binary64 ->
  valid_binary (Floating.prec f) (Floating.emax f) (m_data v) = true ->
  plus_zero_equals (A := Floating.arithmetic f) v
    = Ok (MkMask (negb (Floating.is_nan (m_data v))))
  /\ times_one_equals (A := Floating.arithmetic f) v
    = Ok (MkMask (negb (Floating.is_nan (m_data v)))).
Proof.
  intros Hf Hv.
  unfold plus_zero_equals, times_one_equals, operator_binary, operator_compare,
    broadcast, requires.
  cbn [Floating.arithmetic static_cast_int has_operator binary relational m_data
         Floating.has Floating.binop Floating.relop bind].
  split.
  - cbn [binary_normalize]. rewrite SFadd_zero, SFeqb_refl. reflexivity.
  - destruct Hf as [-> | ->].
    + change (binary_normalize (Floating.prec Floating.binary32)
                (Floating.emax Floating.binary32) 1 0 false)
        with (S754_finite false (pow2 23) (Zneg 23)).
      rewrite SFmul_one by exact Hv. rewrite SFeqb_refl. reflexivity.
    + change (binary_normalize (Floating.prec Floating.binary64)
                (Floating.emax Floating.binary64) 1 0 false)
        with (S754_finite false (pow2 52) (Zneg 52)).
      rewrite SFmul_one by exact Hv. rewrite SFeqb_refl. reflexivity.
Qed.

(** With a NaN lane neither [v + Vector(0) == v] nor [v * Vector(1) == v]
    gives the all-true mask. *)
Lemma identity_laws_fail_on_nan :
  let v : Vector double := MkVector S754_nan in
  well_formed (m_data v) = true
  /\ plus_zero_equals v = Ok (MkMask false)
  /\ times_one_equals v = Ok (MkMask false)
  /\ plus_zero_equals v <> Ok (MkMask true)
  /\ times_one_equals v <> Ok (MkMask true).
Proof.
  cbv zeta.
  split; [reflexivity |].
  split; [reflexivity |].
  split; [reflexivity |].
  split; discriminate.
Qed.

(** C6, amended.  For the integer entry types and every representable [v],
    [v + Vector(0) == v] and [v * Vector(1) == v] are the all-true mask.  For
    [float] and [double] the two masks are true exactly when the lane is not
    a NaN. *)
Theorem identity_laws :
  (forall v : Vector int,
      well_formed (m_data v) = true ->
      plus_zero_equals v = Ok (MkMask true)
      /\ times_one_equals v = Ok (MkMask true))
  /\ (forall v : Vector unsigned_int,
         well_formed (m_data v) = true ->
         plus_zero_equals v = Ok (MkMask true)
         /\ times_one_equals v = Ok (MkMask true))
  /\ (forall v : Vector short,
         well_formed (m_data v) = true ->
         plus_zero_equals v = Ok (MkMask true)
         /\ times_one_equals v = Ok (MkMask true))
  /\ (forall v : Vector unsigned_short,
         well_formed (m_data v) = true ->
         plus_zero_equals v = Ok (MkMask true)
         /\ times_one_equals v = Ok (MkMask true))
  /\ (forall v : Vector float,
         well_formed (m_data v) = true ->
         plus_zero_equals v = Ok (MkMask (negb (Floating.is_nan (m_data v))))
         /\ times_one_equals v = Ok (MkMask (negb (Floating.is_nan (m_data v)))))
  /\ (forall v : Vector double,
         well_formed (m_data v) = true ->
         plus_zero_equals v = Ok (MkMask (negb (Floating.is_nan (m_data v))))
         /\ times_one_equals v = Ok (MkMask (negb (Floating.is_nan (m_data v))))).
Proof.
  repeat apply conj; intros v Hv.
  - apply (integer_identity_laws Integer.int_kind v); [left; reflexivity | exact Hv].
  - apply (integer_identity_laws Integer.uint_kind v);
      [right; left; reflexivity | exact Hv].
  - apply (integer_identity_laws Integer.short_kind v);
      [right; right; left; reflexivity | exact Hv].
  - apply (integer_identity_laws Integer.ushort_kind v);
      [right; right; right; reflexivity | exact Hv].
  - apply (floating_identity_laws Floating.binary32 v); [left; reflexivity | exact Hv].
  - apply (floating_identity_laws Floating.binary64 v); [right; reflexivity | exact Hv].
Qed.

Lemma identity_laws_witness :
  (plus_zero_equals (broadcast (-7) : Vector int) = Ok (MkMask true)
   /\ times_one_equals (broadcast (-7) : Vector int) = Ok (MkMask true))
  /\ (plus_zero_equals (broadcast 65535 : Vector unsigned_short) = Ok (MkMask true)
      /\ times_one_equals (broadcast 65535 : Vector unsigned_short) = Ok (MkMask true))
  /\ (plus_zero_equals (broadcast 3 : Vector double) = Ok (MkMask true)
      /\ times_one_equals (broadcast 3 : Vector double) = Ok (MkMask true))
  /\ (plus_zero_equals (MkVector (S754_infinity true) : Vector float) = Ok (MkMask true)
      /\ times_one_equals (MkVector (S754_infinity true) : Vector float)
         = Ok (MkMask true)).
Proof.
  destruct identity_laws as (Hint & _ & _ & Hushort & Hfloat & Hdouble).
  split; [| split; [| split]].
  - exact (Hint (broadcast (-7)) eq_refl).
  - exact (Hushort (broadcast 65535) eq_refl).
  - exact (Hdouble (broadcast 3) eq_refl).
  - exact (Hfloat (MkVector (S754_infinity true)) eq_refl).
Defined.

(** * Further properties *)

(** ** Integer entries stay in range *)

Ltac split_convert :=
  repeat match goal with
    | |- context [if ?a <=? ?b then ?b - _ else ?b] => destruct (Z.leb_spec a b)
    end.

Lemma convert_in_range (k : Integer.kind) (z : Z) :
  vc_kind k -> Integer.representable k (Integer.convert k z) = true.
Proof.
  intros [-> | [-> | [-> | ->]]];
    unfold Integer.representable, Integer.convert, Integer.min_value,
      Integer.max_value; cbn.
  all: split_convert; split_leb; cbn; try reflexivity;
    Z.div_mod_to_equations; lia.
Qed.

Lemma convert_representable (k : Integer.kind) (z : Z) :
  vc_kind k -> Integer.representable k z = true -> Integer.convert k z = z.
Proof.
  intros Hk Hz. pose proof (store_representable k z Hk Hz) as Hs.
  unfold Integer.store in Hs.
  destruct (_ && _); [discriminate | congruence].
Qed.

Lemma store_in_range (k : Integer.kind) (e r : Z) :
  vc_kind k -> Integer.store k e = Ok r -> Integer.representable k r = true.
Proof.
  intros Hk. unfold Integer.store.
  destruct (_ && _); [discriminate |].
  intros [= <-]. apply convert_in_range, Hk.
Qed.

Lemma binop_in_range (k : Integer.kind) (s : symbol) (a b r : Z) :
  vc_kind k -> Integer.binop k s a b = Ok r -> Integer.representable k r = true.
Proof.
  intros Hk. destruct s; cbn.
  all: repeat match goal with
         | |- context [if ?c then _ else _] => destruct c
         end; try discriminate; try (apply store_in_range, Hk).
  destruct (Integer.store k (Z.quot a b)); cbn;
    [apply store_in_range, Hk | discriminate].
Qed.

Lemma operator_assign_in_range (k : Integer.kind) (s : symbol) (v w r : Vector Z) :
  vc_kind k ->
  operator_assign (A := Integer.arithmetic k) s v w = Ok r ->
  Integer.representable k (m_data r) = true.
Proof.
  intros Hk. unfold operator_assign, requires; cbn.
  destruct (Integer.binop k s (m_data v) (m_data w)) as [d | f] eqn:Hd; cbn;
    [| discriminate].
  intros [= <-]; cbn. exact (binop_in_range k s _ _ d Hk Hd).
Qed.

(** X1.  On the integer entry types every vector that [broadcast], a binary
    operator, a compound assignment or [conditional_assign] produces holds a
    value of the entry type, provided the vectors it starts from do. *)
Theorem integer_vectors_stay_in_range :
  forall (k : Integer.kind) (O : Operator) (s : symbol) (a : Z)
         (lhs rhs r : Vector Z) (mask : Mask),
    vc_kind k ->
    well_formed (Arithmetic := Integer.arithmetic k) (m_data lhs) = true ->
    well_formed (Arithmetic := Integer.arithmetic k) (m_data rhs) = true ->
    well_formed (Arithmetic := Integer.arithmetic k)
      (m_data (broadcast (A := Integer.arithmetic k) a)) = true
    /\ (operator_binary (A := Integer.arithmetic k) s lhs rhs = Ok r ->
        well_formed (Arithmetic := Integer.arithmetic k) (m_data r) = true)
    /\ (operator_assign (A := Integer.arithmetic k) s lhs rhs = Ok r ->
        well_formed (Arithmetic := Integer.arithmetic k) (m_data r) = true)
    /\ (conditional_assign (A := Integer.arithmetic k) O lhs mask rhs = Ok r ->
        well_formed (Arithmetic := Integer.arithmetic k) (m_data r) = true).
Proof.
  intros k O s a lhs rhs r mask Hk Hl Hr. cbn in Hl, Hr |- *.
  split; [apply convert_in_range, Hk |].
  split; [apply (operator_assign_in_range k s lhs rhs r Hk) |].
  split; [apply (operator_assign_in_range k s lhs rhs r Hk) |].
  destruct O; unfold conditional_assign, Vc_CONDITIONAL_ASSIGN, copy_assign;
    try discriminate;
    try match goal with
      | |- requires ?s ?b = _ -> _ => change (requires s b) with b
      end;
    destruct (isFull mask);
    try (intros [= <-]; assumption);
    try (apply (operator_assign_in_range k _ lhs rhs r Hk)).
Qed.

Lemma integer_vectors_stay_in_range_witness :
  well_formed (m_data (broadcast 4294967301 : Vector int)) = true
  /\ (operator_binary Sub (broadcast 3 : Vector unsigned_int) (broadcast 5)
      = Ok (broadcast 4294967294)
      /\ well_formed (m_data (broadcast 4294967294 : Vector unsigned_int)) = true).
Proof.
  destruct (integer_vectors_stay_in_range Integer.int_kind Assign Add 4294967301
              (broadcast 1 : Vector int) (broadcast 2 : Vector int)
              (broadcast 3 : Vector int) (MkMask true)) as (Hb & _);
    [left; reflexivity | reflexivity | reflexivity |].
  destruct (integer_vectors_stay_in_range Integer.uint_kind Assign Sub 0
              (broadcast 3 : Vector unsigned_int)
              (broadcast 5 : Vector unsigned_int)
              (broadcast 4294967294 : Vector unsigned_int) (MkMask true))
    as (_ & Hop & _);
    [right; left; reflexivity | reflexivity | reflexivity |].
  split; [exact Hb |].
  split; [reflexivity | exact (Hop eq_refl)].
Defined.

(** ** Overflow *)

(** X2.  [operator+] on [Vector<unsigned int>] never fails and adds modulo
    [2 ^ 32]; on [Vector<int>] it yields the exact sum when that is an [int]
    and is undefined otherwise. *)
Theorem addition_overflow :
  (forall v w : Vector unsigned_int,
      operator_binary Add v w = Ok (MkVector ((m_data v + m_data w) mod 2 ^ 32)))
  /\ (forall v w : Vector int,
         operator_binary Add v w
         = if Integer.representable Integer.int_kind (m_data v + m_data w)
           then Ok (MkVector (m_data v + m_data w))
           else Fail Undefined).
Proof.
  split; intros v w.
  - reflexivity.
  - unfold operator_binary, requires; cbn.
    unfold Integer.store; cbn.
    destruct (Integer.representable Integer.int_kind (m_data v + m_data w)) eqn:Hr;
      cbn; [| reflexivity].
    rewrite (convert_representable Integer.int_kind _ (or_introl eq_refl) Hr).
    reflexivity.
Qed.

(** ** Increment and decrement *)

Lemma store_Ok (k : Integer.kind) (e d : Z) :
  Integer.store k e = Ok d <->
  (Integer.is_signed (Integer.promote k)
   && negb (Integer.representable (Integer.promote k) e) = false)
  /\ d = Integer.convert k e.
Proof.
  unfold Integer.store. destruct (_ && _); split.
  - discriminate.
  - intros [H _]; discriminate H.
  - intros [= <-]; split; reflexivity.
  - intros [_ ->]; reflexivity.
Qed.

Ltac bool_to_Z :=
  repeat match goal with
    | H : context [negb _ = false] |- _ => rewrite negb_false_iff in H
    | H : context [_ && _ = true] |- _ => rewrite andb_true_iff in H
    | H : context [(_ <=? _) = true] |- _ => rewrite Z.leb_le in H
    | |- context [negb _ = false] => rewrite negb_false_iff
    | |- context [_ && _ = true] => rewrite andb_true_iff
    | |- context [(_ <=? _) = true] => rewrite Z.leb_le
    end.

Lemma increment_decrement_entry (k : Integer.kind) (x d : Z) :
  vc_kind k ->
  Integer.representable k x = true ->
  (Integer.binop k Add x (Integer.convert k 1) = Ok d ->
   Integer.binop k Sub d (Integer.convert k 1) = Ok x)
  /\ (Integer.binop k Sub x (Integer.convert k 1) = Ok d ->
      Integer.binop k Add d (Integer.convert k 1) = Ok x).
Proof.
  intros Hk Hx.
  destruct (convert_small k Hk) as [_ ->].
  unfold Integer.binop. rewrite !store_Ok.
  revert Hx; destruct Hk as [-> | [-> | [-> | ->]]];
    unfold Integer.representable, Integer.convert, Integer.promote,
      Integer.min_value, Integer.max_value; cbn; intros Hx.
  all: split; intros [Hg ->]; split; try reflexivity.
  all: bool_to_Z; split_convert; Z.div_mod_to_equations; lia.
Qed.

(** X3.  On the integer entry types [--] undoes [++] and [++] undoes [--]
    whenever the first step is defined; the postfix forms return the vector
    as it was. *)
Theorem increment_decrement_round_trip :
  forall (k : Integer.kind) (v r v' : Vector Z),
    vc_kind k ->
    well_formed (Arithmetic := Integer.arithmetic k) (m_data v) = true ->
    (pre_increment (A := Integer.arithmetic k) v = Ok (r, v') ->
     r = v' /\ pre_decrement (A := Integer.arithmetic k) v' = Ok (v, v))
    /\ (pre_decrement (A := Integer.arithmetic k) v = Ok (r, v') ->
        r = v' /\ pre_increment (A := Integer.arithmetic k) v' = Ok (v, v))
    /\ (post_increment (A := Integer.arithmetic k) v = Ok (r, v') ->
        r = v /\ post_decrement (A := Integer.arithmetic k) v' = Ok (v', v))
    /\ (post_decrement (A := Integer.arithmetic k) v = Ok (r, v') ->
        r = v /\ post_increment (A := Integer.arithmetic k) v' = Ok (v', v)).
Proof.
  intros k [x] r v' Hk Hx. cbn in Hx.
  unfold pre_increment, pre_decrement, post_increment, post_decrement,
    increment, decrement; cbn.
  split; [| split; [| split]]; intros H.
  all: match type of H with
       | bind ?b _ = _ => destruct b as [d | f] eqn:Hd; cbn in H;
                          [injection H as <- <- | discriminate H]
       end; split; try reflexivity; cbn.
  all: destruct (increment_decrement_entry k x d Hk Hx) as [Hup Hdown];
    cbn in Hup, Hdown.
  all: first [rewrite (Hup Hd) | rewrite (Hdown Hd)]; reflexivity.
Qed.

Lemma increment_decrement_round_trip_witness :
  pre_increment (broadcast 32767 : Vector short)
    = Ok (broadcast (-32768), broadcast (-32768))
  /\ pre_decrement (broadcast (-32768) : Vector short)
     = Ok (broadcast 32767, broadcast 32767)
  /\ pre_increment (broadcast 2147483647 : Vector int) = Fail Undefined.
Proof.
  split; [reflexivity | split; [| reflexivity]].
  destruct (increment_decrement_round_trip Integer.short_kind
              (broadcast 32767 : Vector short)
              (broadcast (-32768) : Vector short)
              (broadcast (-32768) : Vector short)) as (Hpre & _);
    [right; right; left; reflexivity | reflexivity |].
  exact (proj2 (Hpre eq_refl)).
Defined.

(** ** Division by zero under a mask *)

(** X4.  On the integer entry types [conditional_assign] with [DivideAssign]
    or [RemainderAssign] and a zero divisor is undefined under a full mask
    and leaves [lhs] alone under any other mask: the mask guards the
    division.  On [float] and [double] the division always yields a
    value. *)
Theorem conditional_division_by_zero :
  (forall (k : Integer.kind) (lhs rhs : Vector Z) (mask : Mask),
      m_data rhs = 0 ->
      conditional_assign (A := Integer.arithmetic k) DivideAssign lhs mask rhs
      = (if isFull mask then Fail Undefined else Ok lhs)
      /\ conditional_assign (A := Integer.arithmetic k) RemainderAssign lhs mask rhs
         = (if isFull mask then Fail Undefined else Ok lhs))
  /\ (forall (lhs rhs : Vector float) (mask : Mask),
         exists r, conditional_assign DivideAssign lhs mask rhs = Ok r)
  /\ (forall (lhs rhs : Vector double) (mask : Mask),
         exists r, conditional_assign DivideAssign lhs mask rhs = Ok r).
Proof.
  split; [| split].
  - intros k lhs [y] mask Hy; cbn in Hy; subst y.
    unfold conditional_assign, Vc_CONDITIONAL_ASSIGN, operator_assign, requires;
      cbn.
    destruct (isFull mask); split; reflexivity.
  - intros lhs rhs mask.
    unfold conditional_assign, Vc_CONDITIONAL_ASSIGN, operator_assign, requires;
      cbn.
    destruct (isFull mask); eexists; reflexivity.
  - intros lhs rhs mask.
    unfold conditional_assign, Vc_CONDITIONAL_ASSIGN, operator_assign, requires;
      cbn.
    destruct (isFull mask); eexists; reflexivity.
Qed.

Lemma conditional_division_by_zero_witness :
  conditional_assign DivideAssign (broadcast 6 : Vector int) (MkMask true)
    (broadcast 0) = Fail Undefined
  /\ conditional_assign RemainderAssign (broadcast 6 : Vector int) (MkMask false)
       (broadcast 0) = Ok (broadcast 6).
Proof.
  destruct (proj1 conditional_division_by_zero Integer.int_kind
              (broadcast 6 : Vector int) (broadcast 0 : Vector int)
              (MkMask true)) as [Hdiv _]; [reflexivity |].
  destruct (proj1 conditional_division_by_zero Integer.int_kind
              (broadcast 6 : Vector int) (broadcast 0 : Vector int)
              (MkMask false)) as [_ Hrem]; [reflexivity |].
  split; [exact Hdiv | exact Hrem].
Defined.

(** ** Conversions between integer vectors *)

Lemma convert_convert (k1 k2 : Integer.kind) (z : Z) :
  vc_kind k1 -> vc_kind k2 -> Integer.bits k1 <= Integer.bits k2 ->
  Integer.convert k1 (Integer.convert k2 z) = Integer.convert k1 z.
Proof.
  intros [-> | [-> | [-> | ->]]] [-> | [-> | [-> | ->]]]; cbn; intros Hb;
    try (exfalso; lia); unfold Integer.convert; cbn.
  all: split_convert; cbn; try reflexivity; Z.div_mod_to_equations; lia.
Qed.

(** X5.  Converting an integer vector to an entry type that is at least as
    wide and back gives the vector again, and a conversion keeps every value
    the target type can hold. *)
Theorem integer_conversion_round_trip :
  forall (k1 k2 : Integer.kind) (x : Vector Z),
    vc_kind k1 -> vc_kind k2 ->
    Integer.representable k1 (m_data x) = true ->
    (Integer.bits k1 <= Integer.bits k2 ->
     converted k1 (converted k2 x) = x
     /\ staticCast k1 (staticCast k2 x) = x)
    /\ (Integer.representable k2 (m_data x) = true -> converted k2 x = x).
Proof.
  intros k1 k2 [z] Hk1 Hk2 Hz; cbn in Hz.
  unfold converted, staticCast; cbn. split.
  - intros Hb.
    rewrite (convert_convert k1 k2 z Hk1 Hk2 Hb),
      (convert_representable k1 z Hk1 Hz).
    split; reflexivity.
  - intros Hz2. rewrite (convert_representable k2 z Hk2 Hz2). reflexivity.
Qed.

Lemma integer_conversion_round_trip_witness :
  converted Integer.short_kind
    (converted Integer.uint_kind (broadcast (-1) : Vector short))
    = (broadcast (-1) : Vector short)
  /\ converted Integer.uint_kind (broadcast (-1) : Vector short)
     = (broadcast 4294967295 : Vector unsigned_int)
  /\ converted Integer.int_kind (broadcast (-1) : Vector short)
     = (broadcast (-1) : Vector int).
Proof.
  destruct (integer_conversion_round_trip Integer.short_kind Integer.uint_kind
              (broadcast (-1) : Vector short)) as [Hback _];
    [right; right; left; reflexivity | right; left; reflexivity | reflexivity |].
  destruct (integer_conversion_round_trip Integer.short_kind Integer.int_kind
              (broadcast (-1) : Vector short)) as [_ Hkeep];
    [right; right; left; reflexivity | left; reflexivity | reflexivity |].
  split; [apply Hback; cbn; lia |].
  split; [reflexivity | exact (Hkeep eq_refl)].
Defined.

(** ** pack as a step of stream compaction *)

(** X6.  [pack] leaves [m1 || m2] in [m1] and [m1 && m2] in [m2], so the
    number of set flags is the same before and after; it returns the new
    [m1] and never writes to [v2]. *)
Theorem pack_conserves_lanes :
  forall (T : Type) (this v2 : Vector T) (m1 m2 : Mask),
    fst (pack this m1 v2 m2) = data m1 || data m2
    /\ data (pk_m1 (snd (pack this m1 v2 m2))) = data m1 || data m2
    /\ data (pk_m2 (snd (pack this m1 v2 m2))) = data m1 && data m2
    /\ active (pk_m1 (snd (pack this m1 v2 m2))) (pk_m2 (snd (pack this m1 v2 m2)))
       = active m1 m2
    /\ pk_v2 (snd (pack this m1 v2 m2)) = v2.
Proof.
  intros T this v2 [[|]] [[|]]; unfold pack, active; cbn;
    repeat split; reflexivity.
Qed.

(** X7.  [pack] is idempotent: called again on what it left, it returns the
    same flag and changes nothing. *)
Theorem pack_idempotent :
  forall (T : Type) (this v2 : Vector T) (m1 m2 : Mask),
    pack (pk_this (snd (pack this m1 v2 m2)))
         (pk_m1 (snd (pack this m1 v2 m2)))
         (pk_v2 (snd (pack this m1 v2 m2)))
         (pk_m2 (snd (pack this m1 v2 m2)))
    = pack this m1 v2 m2.
Proof.
  intros T this v2 [[|]] [[|]]; unfold pack; cbn; reflexivity.
Qed.

(** ** The two forms of shifted *)

(** X8.  For the amounts its assertion admits, [shifted(amount, shiftIn)]
    with the zero vector as [shiftIn] is [shifted(amount)]. *)
Theorem shifted_fill_with_zero :
  forall (T : Type) (A : Arithmetic T) (v : Vector T) (amount : Z),
    - Size <= amount <= Size ->
    shifted_fill v amount Zero = shifted v amount.
Proof.
  intros T A v amount Hrange; unfold shifted_fill, shifted, Size in *.
  rewrite VC_ASSERT_passes by lia. reflexivity.
Qed.

Lemma shifted_fill_with_zero_witness :
  shifted_fill (broadcast 5 : Vector int) (-1) Zero = Ok (broadcast 0)
  /\ shifted_fill (broadcast 5 : Vector int) 0 Zero = Ok (broadcast 5).
Proof.
  split.
  - rewrite (shifted_fill_with_zero int int_Arithmetic (broadcast 5) (-1));
      [reflexivity | unfold Size; lia].
  - rewrite (shifted_fill_with_zero int int_Arithmetic (broadcast 5) 0);
      [reflexivity | unfold Size; lia].
Defined.

(** X9.  A lane that was shifted out does not come back: after a shift by an
    amount other than 0 every further shift gives the zero vector, and a
    shift by 0 changes nothing. *)
Theorem shifted_twice :
  forall (T : Type) (A : Arithmetic T) (v : Vector T) (a b : Z),
    (r <- shifted v a ;; shifted r b)
    = if a =? 0 then shifted v b else Ok Zero.
Proof.
  intros T A v a b; unfold shifted; cbn.
  destruct (a =? 0); [reflexivity |].
  destruct (b =? 0); reflexivity.
Qed.

(** ** Masked assignment and zeroing *)

(** X10.  [conditional_assign<Assign>] is [assign]: for every mask it leaves
    in [lhs] what [lhs.assign(rhs, mask)] leaves; [setZero(k)] assigns the
    zero vector under [k] and [setZeroInverted(k)] under the inverted mask. *)
Theorem assign_forms_agree :
  forall (T : Type) (A : Arithmetic T) (lhs rhs : Vector T) (mask : Mask),
    conditional_assign Assign lhs mask rhs = Ok (assign lhs rhs mask)
    /\ setZero_masked lhs mask = assign lhs Zero mask
    /\ setZeroInverted lhs mask = assign lhs Zero (inverted mask).
Proof.
  intros T A lhs rhs [[|]];
    unfold conditional_assign, Vc_CONDITIONAL_ASSIGN, copy_assign, assign,
      setZero_masked, setZeroInverted, inverted, isFull, Zero; cbn;
    repeat split; reflexivity.
Qed.

(** X11.  [setZero(k)] and [setZeroInverted(k)] cover the vector between
    them: one after the other, in either order, is [setZero()], and each of
    them is idempotent. *)
Theorem zeroing_composes :
  forall (T : Type) (A : Arithmetic T) (v : Vector T) (k : Mask),
    setZeroInverted (setZero_masked v k) k = setZero v
    /\ setZero_masked (setZeroInverted v k) k = setZero v
    /\ setZero_masked (setZero_masked v k) k = setZero_masked v k
    /\ setZeroInverted (setZeroInverted v k) k = setZeroInverted v k
    /\ sum (setZero v) = static_cast_int 0.
Proof.
  intros T A v [[|]]; unfold setZero_masked, setZeroInverted, setZero; cbn;
    repeat split; reflexivity.
Qed.

(** ** Increment as compound assignment *)

(** X12.  For an entry type with [+] and [-] the conditional increments and
    decrements leave in [lhs] what [conditional_assign] with [PlusAssign] or
    [MinusAssign] and [Vector(1)] leaves, under every mask; the prefix forms
    return that vector, the postfix forms the vector as it was. *)
Theorem conditional_increment_is_plus_one :
  forall (T : Type) (A : Arithmetic T) (lhs : Vector T) (mask : Mask),
    has_operator Add = true ->
    has_operator Sub = true ->
    conditional_assign_unary PreIncrement lhs mask
    = (r <- conditional_assign PlusAssign lhs mask (broadcast 1) ;; Ok (r, r))
    /\ conditional_assign_unary PostIncrement lhs mask
       = (r <- conditional_assign PlusAssign lhs mask (broadcast 1) ;; Ok (lhs, r))
    /\ conditional_assign_unary PreDecrement lhs mask
       = (r <- conditional_assign MinusAssign lhs mask (broadcast 1) ;; Ok (r, r))
    /\ conditional_assign_unary PostDecrement lhs mask
       = (r <- conditional_assign MinusAssign lhs mask (broadcast 1) ;; Ok (lhs, r)).
Proof.
  intros T A lhs mask Hadd Hsub.
  unfold conditional_assign_unary, Vc_CONDITIONAL_ASSIGN_unary,
    conditional_assign, Vc_CONDITIONAL_ASSIGN, operator_assign, requires,
    pre_increment, post_increment, pre_decrement, post_decrement,
    increment, decrement, broadcast.
  rewrite Hadd, Hsub; cbn [m_data].
  destruct (isFull mask); cbn [bind].
  - rewrite (Vector_eta lhs).
    destruct (binary Add (m_data lhs) (static_cast_int 1));
      destruct (binary Sub (m_data lhs) (static_cast_int 1));
      repeat split; reflexivity.
  - repeat split; reflexivity.
Qed.

Lemma conditional_increment_is_plus_one_witness :
  conditional_assign_unary PostIncrement (broadcast 5 : Vector int) (MkMask true)
    = Ok (broadcast 5, broadcast 6)
  /\ conditional_assign PlusAssign (broadcast 5 : Vector int) (MkMask true)
       (broadcast 1) = Ok (broadcast 6).
Proof.
  destruct (conditional_increment_is_plus_one int int_Arithmetic (broadcast 5)
              (MkMask true)) as (_ & Hpost & _);
    [reflexivity | reflexivity |].
  split; [rewrite Hpost; reflexivity | reflexivity].
Defined.

(** ** Callbacks *)

(** X13.  [apply(f, mask)] is [assign] of what [apply(f)] gives, and the
    callback runs once per selected lane: under a mask that selects no lane
    neither [apply(f, mask)] nor [call(f, mask)] runs it, otherwise and in
    the unmasked forms it runs exactly once. *)
Theorem callbacks_follow_mask :
  forall (T St : Type) (f : T -> St -> T * St) (g : T -> St -> St)
         (v : Vector T) (m : Mask) (s : St),
    fst (apply_masked f v m s) = assign v (fst (apply f v s)) m
    /\ snd (apply_masked f v m s) = (if data m then snd (apply f v s) else s)
    /\ call_masked (counting g) v m (s, 0%nat)
       = (call_masked g v m s, if data m then 1%nat else 0%nat)
    /\ call (counting g) v (s, 0%nat) = (call g v s, 1%nat)
    /\ callWithValuesSorted g v s = call g v s.
Proof.
  intros T St f g v [[|]] s;
    unfold apply_masked, apply, assign, call_masked, call, callWithValuesSorted,
      counting; cbn;
    destruct (f (m_data v) s); repeat split; reflexivity.
Qed.

(** X14.  The entry [generate] or [fill] asks the callback for is the one of
    index 0, the index [operator[]] reads back; every other index stops on
    the assertion.  [fill] forgets what the vector held. *)
Theorem generate_then_subscript :
  forall (T St : Type) (gen : Z -> St -> T * St) (v : Vector T) (s : St) (i : Z),
    subscript (fst (generate gen s)) i
    = (if i =? 0 then Ok (fst (gen 0 s)) else Fail AssertionFailed)
    /\ fill gen v s = generate gen s
    /\ snd (generate gen s) = snd (gen 0 s).
Proof.
  intros T St gen v s i; unfold subscript, generate, fill.
  destruct (gen 0 s) as [y s']; cbn.
  destruct (i =? 0); repeat split; reflexivity.
Qed.

(** ** Unary operators *)

Lemma complement_entry (k : Integer.kind) (x : Z) :
  vc_kind k ->
  Integer.representable k x = true ->
  exists r,
    Integer.store k (Z.lnot x) = Ok r
    /\ Integer.representable k r = true
    /\ Integer.store k (Z.lnot r) = Ok x
    /\ r <> x.
Proof.
  intros Hk Hx.
  exists (Integer.convert k (Z.lnot x)).
  rewrite !store_Ok.
  revert Hx; destruct Hk as [-> | [-> | [-> | ->]]];
    unfold Integer.representable, Integer.convert, Integer.promote,
      Integer.min_value, Integer.max_value, Z.lnot; cbn; intros Hx.
  all: bool_to_Z; split_convert.
  all: repeat match goal with |- _ /\ _ => split end; try reflexivity.
  all: try (Z.div_mod_to_equations; lia).
Qed.

(** X15.  [operator~] exists for integral entry types only: on [float] and
    [double] it is rejected; on the integer entry types it never fails, stays
    in the type, changes every vector and undoes itself. *)
Theorem complement_integral_only :
  (forall v : Vector float, operator_complement v = Fail IllFormed)
  /\ (forall v : Vector double, operator_complement v = Fail IllFormed)
  /\ (forall (k : Integer.kind) (v : Vector Z),
         vc_kind k ->
         well_formed (Arithmetic := Integer.arithmetic k) (m_data v) = true ->
         exists r,
           operator_complement (U := integer_unary k) v = Ok r
           /\ well_formed (Arithmetic := Integer.arithmetic k) (m_data r) = true
           /\ operator_complement (U := integer_unary k) r = Ok v
           /\ r <> v).
Proof.
  split; [reflexivity | split; [reflexivity |]].
  intros k [x] Hk Hx; cbn in Hx.
  destruct (complement_entry k x Hk Hx) as (r & H1 & H2 & H3 & H4).
  exists (MkVector r); unfold operator_complement; cbn.
  rewrite H1, H3; cbn.
  repeat split; try assumption.
  intros [= Heq]; exact (H4 Heq).
Qed.

Lemma complement_integral_only_witness :
  operator_complement (broadcast 5 : Vector int) = Ok (broadcast (-6))
  /\ operator_complement (broadcast 5 : Vector unsigned_short)
     = Ok (broadcast 65530)
  /\ exists r, operator_complement (broadcast 0 : Vector unsigned_int) = Ok r
               /\ operator_complement r = Ok (broadcast 0).
Proof.
  split; [reflexivity | split; [reflexivity |]].
  destruct (proj2 (proj2 complement_integral_only) Integer.uint_kind
              (broadcast 0 : Vector unsigned_int)) as (r & H1 & _ & H2 & _);
    [right; left; reflexivity | reflexivity |].
  exists r; split; [exact H1 | exact H2].
Defined.

Lemma negate_entry (k : Integer.kind) (x r : Z) :
  vc_kind k ->
  Integer.representable k x = true ->
  Integer.store k (- x) = Ok r ->
  Integer.store k (- r) = Ok x.
Proof.
  intros Hk Hx. rewrite !store_Ok.
  revert Hx; destruct Hk as [-> | [-> | [-> | ->]]];
    unfold Integer.representable, Integer.convert, Integer.promote,
      Integer.min_value, Integer.max_value; cbn; intros Hx [Hg ->].
  all: split; try reflexivity.
  all: bool_to_Z; split_convert; Z.div_mod_to_equations; lia.
Qed.

(** X16.  Unary minus undoes itself: on the integer entry types whenever the
    first negation is defined, on [float] and [double] always.  On [int] it
    is undefined for the least value only, and on the integer entry types
    [-v] is [Vector(0) - v]. *)
Theorem negation_involutive :
  (forall (k : Integer.kind) (v r : Vector Z),
      vc_kind k ->
      well_formed (Arithmetic := Integer.arithmetic k) (m_data v) = true ->
      operator_minus (U := integer_unary k) v
      = operator_binary (A := Integer.arithmetic k) Sub
          (broadcast (A := Integer.arithmetic k) 0) v
      /\ (operator_minus (U := integer_unary k) v = Ok r ->
          operator_minus (U := integer_unary k) r = Ok v))
  /\ (forall v : Vector int,
         well_formed (m_data v) = true ->
         (operator_minus v = Fail Undefined <-> m_data v = - 2 ^ 31))
  /\ (forall v : Vector float,
         (r <- operator_minus v ;; operator_minus r) = Ok v)
  /\ (forall v : Vector double,
         (r <- operator_minus v ;; operator_minus r) = Ok v).
Proof.
  split; [| split; [| split]].
  - intros k [x] [r] Hk Hx; cbn in Hx.
    unfold operator_minus, operator_binary, requires, broadcast; cbn.
    rewrite (proj1 (convert_small k Hk)); cbn.
    split; [reflexivity |].
    destruct (Integer.store k (- x)) as [d | f] eqn:Hd; cbn; [| discriminate].
    intros [= ->]. rewrite (negate_entry k x r Hk Hx Hd). reflexivity.
  - intros [x] Hx; revert Hx.
    unfold operator_minus; cbn.
    unfold Integer.store, Integer.representable, Integer.promote,
      Integer.min_value, Integer.max_value; cbn.
    intros Hx; bool_to_Z.
    destruct ((-2147483648 <=? - x) && (- x <=? 2147483647)) eqn:Hc; cbn.
    + split; [discriminate |]. intros ->. discriminate Hc.
    + split; [intros _ | reflexivity].
      apply andb_false_iff in Hc.
      destruct Hc as [Hc | Hc]; apply Z.leb_gt in Hc; lia.
  - intros [[s | s | | s m e]]; cbn; rewrite ?negb_involutive; reflexivity.
  - intros [[s | s | | s m e]]; cbn; rewrite ?negb_involutive; reflexivity.
Qed.

Lemma negation_involutive_witness :
  operator_minus (broadcast 5 : Vector unsigned_int) = Ok (broadcast 4294967291)
  /\ operator_minus (broadcast 4294967291 : Vector unsigned_int)
     = Ok (broadcast 5)
  /\ operator_minus (broadcast (-2147483648) : Vector int) = Fail Undefined.
Proof.
  destruct (proj1 negation_involutive Integer.uint_kind
              (broadcast 5 : Vector unsigned_int)
              (broadcast 4294967291 : Vector unsigned_int)) as [_ Hback];
    [right; left; reflexivity | reflexivity |].
  destruct (proj1 (proj2 negation_involutive)
              (broadcast (-2147483648) : Vector int)) as [_ Hmin];
    [reflexivity |].
  split; [reflexivity | split; [exact (Hback eq_refl) | exact (Hmin eq_refl)]].
Defined.

(** ** Comparisons *)

Lemma SFcompare_swap (x y : spec_float) :
  SFcompare y x = option_map CompOpp (SFcompare x y).
Proof.
  destruct x as [sx | sx | | sx mx ex], y as [sy | sy | | sy my ey];
    try destruct sx; try destruct sy; cbn; try reflexivity.
  all: rewrite (Z.compare_antisym ex ey); destruct (ex ?= ey); cbn;
    try reflexivity.
  all: assert (Hm : Pos.compare_cont Eq my mx
                    = CompOpp (Pos.compare_cont Eq mx my))
    by (rewrite Pos.compare_cont_antisym; reflexivity).
  all: rewrite Hm; try rewrite CompOpp_involutive; reflexivity.
Qed.

(** X17.  A comparison with a NaN lane is false for [==], [<], [<=], [>] and
    [>=] and true for [!=], whatever the other operand. *)
Theorem nan_compares_unordered :
  forall (f : Floating.format) (c : compare_symbol) (v w : Vector spec_float),
    Floating.is_nan (m_data v) = true \/ Floating.is_nan (m_data w) = true ->
    operator_compare (A := Floating.arithmetic f) c v w
    = MkMask (match c with CmpNe => true | _ => false end).
Proof.
  intros f c [x] [y] Hnan; cbn in Hnan.
  unfold operator_compare; cbn.
  destruct Hnan as [Hnan | Hnan].
  - destruct x; try discriminate Hnan.
    destruct c, y as [s | s | | s m e]; reflexivity.
  - destruct y; try discriminate Hnan.
    destruct c, x as [s | s | | s m e]; reflexivity.
Qed.

Lemma nan_compares_unordered_witness :
  operator_compare CmpLe (MkVector S754_nan : Vector double) (broadcast 1)
    = MkMask false
  /\ operator_compare CmpNe (broadcast 1 : Vector double) (MkVector S754_nan)
     = MkMask true.
Proof.
  split.
  - apply (nan_compares_unordered Floating.binary64 CmpLe
             (MkVector S754_nan) (broadcast 1 : Vector double)).
    left; reflexivity.
  - apply (nan_compares_unordered Floating.binary64 CmpNe
             (broadcast 1 : Vector double) (MkVector S754_nan)).
    right; reflexivity.
Defined.

(** X18.  On the integer entry types, and on [float] and [double] when
    neither lane is a NaN, the comparison operators are those of a total
    order. *)
Theorem comparisons_totally_ordered :
  (forall (k : Integer.kind) (v w : Vector Z),
      totally_ordered (A := Integer.arithmetic k) v w)
  /\ (forall (f : Floating.format) (v w : Vector spec_float),
         Floating.is_nan (m_data v) = false ->
         Floating.is_nan (m_data w) = false ->
         totally_ordered (A := Floating.arithmetic f) v w).
Proof.
  split.
  - intros k [x] [y]; unfold totally_ordered, operator_compare; cbn.
    rewrite Z.leb_compare, (Z.leb_compare y x), Z.ltb_compare,
      (Z.ltb_compare y x), Z.eqb_compare, (Z.compare_antisym x y).
    destruct (x ?= y); cbn; repeat split; reflexivity.
  - intros f [x] [y] Hx Hy; cbn in Hx, Hy.
    unfold totally_ordered, operator_compare; cbn.
    unfold SFleb, SFltb, SFeqb. rewrite (SFcompare_swap x y).
    destruct (SFcompare x y) as [c |] eqn:Hc.
    + destruct c; cbn; repeat split; reflexivity.
    + exfalso.
      destruct x as [sx | sx | | sx mx ex], y as [sy | sy | | sy my ey];
        cbn in Hc; try discriminate.
Qed.

Lemma comparisons_totally_ordered_witness :
  totally_ordered (MkVector (S754_zero true) : Vector double) (broadcast 0)
  /\ operator_compare CmpEq (MkVector (S754_zero true) : Vector double)
       (broadcast 0) = MkMask true.
Proof.
  split; [| reflexivity].
  apply (proj2 comparisons_totally_ordered Floating.binary64
           (MkVector (S754_zero true)) (broadcast 0 : Vector double));
    reflexivity.
Defined.

(** ** fusedMultiplyAdd *)



(** ** Masked reductions over complementary masks *)

(** X20.  On the integer entry types the masked sums of a vector under a
    mask and under the inverted mask add up to its [sum()], and the masked
    products multiply to its [product()]. *)
Theorem masked_reductions_complement :
  forall (k : Integer.kind) (v : Vector Z) (m : Mask),
    vc_kind k ->
    well_formed (Arithmetic := Integer.arithmetic k) (m_data v) = true ->
    binary (Arithmetic := Integer.arithmetic k) Add
      (sum_masked (A := Integer.arithmetic k) v m)
      (sum_masked (A := Integer.arithmetic k) v (inverted m))
    = Ok (sum v)
    /\ binary (Arithmetic := Integer.arithmetic k) Mul
         (product_masked (A := Integer.arithmetic k) v m)
         (product_masked (A := Integer.arithmetic k) v (inverted m))
       = Ok (product v).
Proof.
  intros k [x] [[|]] Hk Hx; cbn in Hx;
    unfold sum_masked, product_masked, inverted, sum, product; cbn;
    destruct (convert_small k Hk) as [-> ->];
    rewrite ?Z.add_0_r, ?Z.add_0_l, ?Z.mul_1_r, ?Z.mul_1_l;
    rewrite (store_representable k x Hk Hx); split; reflexivity.
Qed.

Lemma masked_reductions_complement_witness :
  binary Add (sum_masked (broadcast 7 : Vector short) (MkMask false))
    (sum_masked (broadcast 7 : Vector short) (inverted (MkMask false)))
    = Ok (7 : short)
  /\ binary Mul (product_masked (broadcast 7 : Vector short) (MkMask true))
       (product_masked (broadcast 7 : Vector short) (inverted (MkMask true)))
     = Ok (7 : short).
Proof.
  destruct (masked_reductions_complement Integer.short_kind
              (broadcast 7 : Vector short) (MkMask false)) as [Hsum _];
    [right; right; left; reflexivity | reflexivity |].
  destruct (masked_reductions_complement Integer.short_kind
              (broadcast 7 : Vector short) (MkMask true)) as [_ Hprod];
    [right; right; left; reflexivity | reflexivity |].
  split; [exact Hsum | exact Hprod].
Defined.

(** ** Compound addition and subtraction *)

Lemma add_sub_entry (k : Integer.kind) (x y d : Z) :
  vc_kind k ->
  Integer.representable k x = true ->
  Integer.representable k y = true ->
  (Integer.store k (x + y) = Ok d -> Integer.store k (d - y) = Ok x)
  /\ (Integer.store k (x - y) = Ok d -> Integer.store k (d + y) = Ok x).
Proof.
  intros Hk Hx Hy. rewrite !store_Ok.
  revert Hx Hy; destruct Hk as [-> | [-> | [-> | ->]]];
    unfold Integer.representable, Integer.convert, Integer.promote,
      Integer.min_value, Integer.max_value; cbn; intros Hx Hy.
  all: split; intros [Hg ->]; split; try reflexivity.
  all: bool_to_Z; split_convert; Z.div_mod_to_equations; lia.
Qed.

(** X21.  On the integer entry types [conditional_assign] with [MinusAssign]
    undoes the one with [PlusAssign] for the same mask and right-hand side,
    and the other way round, whenever the first of the two is defined. *)
Theorem conditional_plus_minus_round_trip :
  forall (k : Integer.kind) (lhs rhs r : Vector Z) (mask : Mask),
    vc_kind k ->
    well_formed (Arithmetic := Integer.arithmetic k) (m_data lhs) = true ->
    well_formed (Arithmetic := Integer.arithmetic k) (m_data rhs) = true ->
    (conditional_assign (A := Integer.arithmetic k) PlusAssign lhs mask rhs = Ok r ->
     conditional_assign (A := Integer.arithmetic k) MinusAssign r mask rhs = Ok lhs)
    /\ (conditional_assign (A := Integer.arithmetic k) MinusAssign lhs mask rhs = Ok r ->
        conditional_assign (A := Integer.arithmetic k) PlusAssign r mask rhs = Ok lhs).
Proof.
  intros k [x] [y] [r] mask Hk Hx Hy; cbn in Hx, Hy.
  unfold conditional_assign, Vc_CONDITIONAL_ASSIGN, operator_assign, requires;
    cbn.
  destruct (isFull mask).
  - destruct (add_sub_entry k x y r Hk Hx Hy) as [Hadd Hsub].
    split.
    + destruct (Integer.store k (x + y)) as [d | f] eqn:Hd; cbn; [| discriminate].
      intros [= ->]. rewrite (Hadd eq_refl). reflexivity.
    + destruct (Integer.store k (x - y)) as [d | f] eqn:Hd; cbn; [| discriminate].
      intros [= ->]. rewrite (Hsub eq_refl). reflexivity.
  - split; intros [= ->]; reflexivity.
Qed.

Lemma conditional_plus_minus_round_trip_witness :
  conditional_assign PlusAssign (broadcast 4294967295 : Vector unsigned_int)
    (MkMask true) (broadcast 7) = Ok (broadcast 6)
  /\ conditional_assign MinusAssign (broadcast 6 : Vector unsigned_int)
       (MkMask true) (broadcast 7) = Ok (broadcast 4294967295).
Proof.
  split; [reflexivity |].
  destruct (conditional_plus_minus_round_trip Integer.uint_kind
              (broadcast 4294967295 : Vector unsigned_int)
              (broadcast 7 : Vector unsigned_int)
              (broadcast 6 : Vector unsigned_int) (MkMask true)) as [Hback _];
    [right; left; reflexivity | reflexivity | reflexivity |].
  exact (Hback eq_refl).
Defined.
